(** * Bitrix REST client: the [batch] and [getList] methods

    A shallow embedding of [source/bitrix/client/methods/batch.ts] and of the
    list-fetch method next to it.  Both modules are thin layers over an
    injected HTTP [get]: they run on plain JSON data, so the embedding works on
    a small universe of JavaScript values with the handful of runtime
    operations the two files use (property read, [Object.entries],
    [Object.values], [Array.prototype.join], template literals, truthiness). *)

From Stdlib Require Import String Ascii List ZArith Lia Bool Permutation.
From Stdlib Require Import DecimalString DecimalNat.
Import ListNotations.
Open Scope string_scope.


(** ** JavaScript values *)

(** Plain data as [JSON.parse] and object literals produce it.  [Obj] lists the
    own enumerable properties in enumeration order; a JavaScript object never
    holds a key twice, which the statements below spell out with [NoDup] where
    they need it.  [Num] carries integers only: fractional numbers are outside
    this model. *)
#[warnings="-register-all"]
Inductive value : Type :=
| Undefined
| Null
| Bool (b : bool)
| Num (n : Z)
| Str (s : string)
| Arr (xs : list value)
| Obj (props : list (string * value)).

(** Whatever a [throw] or a promise rejection can carry. *)
Inductive exn : Type :=
| JsError (message : string)       (* new Error(message) *)
| JsTypeError (message : string)   (* raised by the runtime itself *)
| Thrown (v : value).              (* any other value *)

(** Outcome of evaluating an expression or a function body. *)
Inductive completion (A : Type) : Type :=
| Normal (a : A)
| Throw (e : exn).
Arguments Normal {A} a.
Arguments Throw {A} e.

Definition cbind {A B} (c : completion A) (k : A -> completion B) : completion B :=
  match c with
  | Normal a => k a
  | Throw e => Throw e
  end.

Notation "x <- c ;; k" := (cbind c (fun x => k))
  (at level 61, c at next level, right associativity).

(** ** Runtime operations *)

Definition nullish (v : value) : bool :=
  match v with
  | Undefined | Null => true
  | _ => false
  end.

(** ToBoolean *)
Definition truthy (v : value) : bool :=
  match v with
  | Undefined | Null => false
  | Bool b => b
  | Num n => negb (n =? 0)%Z
  | Str s => negb (s =? EmptyString)
  | Arr _ | Obj _ => true
  end.

Definition string_of_nat (n : nat) : string :=
  NilEmpty.string_of_uint (Nat.to_uint n).

Definition string_of_Z (n : Z) : string :=
  NilEmpty.string_of_int (Z.to_int n).

Definition newline : string := String "010" EmptyString.

Fixpoint join (sep : string) (parts : list string) : string :=
  match parts with
  | [] => EmptyString
  | [p] => p
  | p :: rest => p ++ sep ++ join sep rest
  end.

(** ToString on plain data; an array element that is [undefined] or [null]
    prints as the empty string, as in [Array.prototype.join].  Exact on
    strings, booleans, [undefined], [null] and integers below 10^21; an
    object that carries a [toString] or [valueOf] of its own, on which the
    conversion can throw, and numbers printed in exponent form are not
    covered. *)
Fixpoint to_string (v : value) : string :=
  match v with
  | Undefined => "undefined"
  | Null => "null"
  | Bool true => "true"
  | Bool false => "false"
  | Num n => string_of_Z n
  | Str s => s
  | Arr xs =>
      join "," (map (fun x => if nullish x then EmptyString else to_string x) xs)
  | Obj _ => "[object Object]"
  end.

Definition join_element (v : value) : string :=
  if nullish v then EmptyString else to_string v.

(** [xs.join(sep)] *)
Definition array_join (sep : string) (xs : list value) : string :=
  join sep (map join_element xs).

Fixpoint assoc {A} (k : string) (l : list (string * A)) : option A :=
  match l with
  | [] => None
  | (k', a) :: rest => if k =? k' then Some a else assoc k rest
  end.

(** [v.name] for the property names the two modules read ([result],
    [result_error], [error], [params], [method]): none of them lives on a
    prototype, so the read is an own-property lookup. *)
Definition get_prop (v : value) (name : string) : completion value :=
  match v with
  | Undefined =>
      Throw (JsTypeError ("Cannot read property '" ++ name ++ "' of undefined"))
  | Null =>
      Throw (JsTypeError ("Cannot read property '" ++ name ++ "' of null"))
  | Obj props =>
      Normal (match assoc name props with Some x => x | None => Undefined end)
  | _ => Normal Undefined
  end.

Fixpoint index_from (i : nat) (xs : list value) : list (string * value) :=
  match xs with
  | [] => []
  | x :: rest => (string_of_nat i, x) :: index_from (S i) rest
  end.

Fixpoint chars (s : string) : list value :=
  match s with
  | EmptyString => []
  | String c rest => Str (String c EmptyString) :: chars rest
  end.

(** [Object.entries(v)] *)
Definition Object_entries (v : value) : completion (list (string * value)) :=
  match v with
  | Undefined | Null =>
      Throw (JsTypeError "Cannot convert undefined or null to object")
  | Obj props => Normal props
  | Arr xs => Normal (index_from 0 xs)
  | Str s => Normal (index_from 0 (chars s))
  | Bool _ | Num _ => Normal []
  end.

(** [Object.keys(v)] *)
Definition Object_keys (v : value) : completion (list string) :=
  es <- Object_entries v ;; Normal (map fst es).

(** [Object.values(v)] *)
Definition Object_values (v : value) : completion (list value) :=
  es <- Object_entries v ;; Normal (map snd es).

(** [{ ...o, [k]: x }]: an existing key keeps its place and takes the new
    value, a new key goes last.  That is the enumeration order of keys that
    are not array indices, and a key [cmd[...]] never is one. *)
Fixpoint obj_set {A} (k : string) (x : A) (o : list (string * A)) : list (string * A) :=
  match o with
  | [] => [(k, x)]
  | (k', y) :: rest =>
      if k =? k' then (k, x) :: rest else (k', y) :: obj_set k x rest
  end.

(** ** Imported names *)

(** What the two modules import from outside [src/]:
    [stringify] of Node's [querystring] (the url-encoder of a command's
    parameters) and the route constant [Method.BATCH] of [types]. *)
Class Imports : Type := {
  stringifyQuery : value -> string;
  Method_BATCH : string
}.

(** Modelled from the spec: [utils/isArray] is not under [src/]; the spec
    describes the test as telling a sequence of error strings from a
    name-keyed mapping ("attempt array-kind access, else fall back to iterating
    mapping values"), which is [Array.isArray]. *)
Definition isArray (v : value) : bool :=
  match v with
  | Arr _ => true
  | _ => false
  end.

Definition elements (v : value) : list value :=
  match v with
  | Arr xs => xs
  | _ => []
  end.

(** *** Node's [querystring.stringify]

    An implementation of the imported encoder, used to run the methods on
    concrete inputs.  Strings are taken as UTF-8 byte sequences, so escaping
    works byte by byte. *)

Definition unreserved (c : ascii) : bool :=
  let n := nat_of_ascii c in
  ((65 <=? n)%nat && (n <=? 90)%nat) || ((97 <=? n)%nat && (n <=? 122)%nat)
  || ((48 <=? n)%nat && (n <=? 57)%nat)
  || existsb (Ascii.eqb c) ["-"; "_"; "."; "!"; "~"; "*"; "'"; "("; ")"]%char.

Definition hex_digit (n : nat) : ascii :=
  nth n ["0"; "1"; "2"; "3"; "4"; "5"; "6"; "7"; "8"; "9";
         "A"; "B"; "C"; "D"; "E"; "F"]%char "0"%char.

Fixpoint qs_escape (s : string) : string :=
  match s with
  | EmptyString => EmptyString
  | String c rest =>
      if unreserved c then String c (qs_escape rest)
      else
        let n := nat_of_ascii c in
        String "%" (String (hex_digit (n / 16))
                      (String (hex_digit (n mod 16)) (qs_escape rest)))
  end.

Definition stringifyPrimitive (v : value) : string :=
  match v with
  | Str s => s
  | Num n => string_of_Z n
  | Bool true => "true"
  | Bool false => "false"
  | _ => EmptyString
  end.

Definition qs_field (entry : string * value) : list string :=
  let '(k, v) := entry in
  let ks := qs_escape k ++ "=" in
  match v with
  | Arr xs => map (fun x => ks ++ qs_escape (stringifyPrimitive x)) xs
  | _ => [ks ++ qs_escape (stringifyPrimitive v)]
  end.

Definition qs_stringify (obj : value) : string :=
  match obj with
  | Obj props => join "&" (flat_map qs_field props)
  | Arr xs => join "&" (flat_map qs_field (index_from 0 xs))
  | _ => EmptyString
  end.

Definition node_imports : Imports :=
  {| stringifyQuery := qs_stringify; Method_BATCH := "batch" |}.

(** ** Promises and the injected HTTP capability *)

Record request : Type := { path : string; options : value }.

Record response : Type := { body : value }.

Inductive settled (A : Type) : Type :=
| Fulfilled (a : A)
| Rejected (e : exn).
Arguments Fulfilled {A} a.
Arguments Rejected {A} e.

(** The [get] of the injected [GotInstance<GotJSONFn>]: a path and an options
    object in, a promise of a response out. *)
Definition GotInstance : Type := string -> value -> settled response.

(** A computation that may call the capability: it extends the log of issued
    requests (what a spy on [get] records) and ends in a settled promise. *)
Definition async (A : Type) : Type := list request -> settled A * list request.

Definition reject {A} (e : exn) : async A := fun log => (Rejected e, log).

(** [get(path, options)] *)
Definition call (get : GotInstance) (p : string) (opts : value) : async response :=
  fun log => (get p opts, (log ++ [{| path := p; options := opts |}])%list).

(** [promise.then(f)] *)
Definition and_then {A B} (p : async A) (f : A -> completion B) : async B :=
  fun log =>
    match p log with
    | (Fulfilled a, log') =>
        (match f a with Normal b => Fulfilled b | Throw e => Rejected e end, log')
    | (Rejected e, log') => (Rejected e, log')
    end.

(** ** [methods/batch.ts] *)

Definition MAX_COMMANDS_PER_BATCH : nat := 50.

(** [arr.reduce(f, init)] with a callback that may throw *)
Fixpoint reduce {A B} (f : A -> B -> completion A) (xs : list B) (init : A) : completion A :=
  match xs with
  | [] => Normal init
  | x :: rest => a <- f init x ;; reduce f rest a
  end.

(** The value the reducer stores for one command:
    [`${command.method}${stringifiedParams}`]. *)
Definition commandQuery `{Imports} (command : value) : completion string :=
  params <- get_prop command "params" ;;
  let stringifiedParams :=
    if truthy params then "?" ++ stringifyQuery params else EmptyString in
  method <- get_prop command "method" ;;
  Normal (to_string method ++ stringifiedParams).

Definition cmdKey (cmdName : string) : string := "cmd[" ++ cmdName ++ "]".

Definition addCommand `{Imports} (queries : list (string * string))
    (entry : string * value) : completion (list (string * string)) :=
  let '(cmdName, command) := entry in
  q <- commandQuery command ;;
  Normal (obj_set (cmdKey cmdName) q queries).

Definition commandsToBatchQuery `{Imports} (commands : value)
  : completion (list (string * string)) :=
  entries <- Object_entries commands ;;
  reduce addCommand entries [].

(** Lines 19-20: the sequence of error messages read off the payload. *)
Definition resultErrorsOf (payload : value) : completion (list value) :=
  result <- get_prop payload "result" ;;
  resultErrors <- get_prop result "result_error" ;;
  if isArray resultErrors then Normal (elements resultErrors)
  else Object_values resultErrors.

Definition batchErrorMessage (errors : list value) : string :=
  "[batch] failed to process. Received errors in "
  ++ string_of_nat (length errors) ++ " commands:" ++ newline
  ++ array_join newline errors.

Definition handleBatchPayload (payload : value) : completion value :=
  errors <- resultErrorsOf payload ;;
  if (0 <? length errors)%nat then Throw (JsError (batchErrorMessage errors))
  else Normal payload.

Definition tooManyCommandsMessage (commandsAmount : nat) : string :=
  "[batch] failed to process. Received " ++ string_of_nat commandsAmount
  ++ " commands, but maximum " ++ string_of_nat MAX_COMMANDS_PER_BATCH
  ++ " allowed".

(** A query record as the options object carries it. *)
Definition record_value (r : list (string * string)) : value :=
  Obj (map (fun kv => (fst kv, Str (snd kv))) r).

(** The method returned by the factory.  It is an [async] function: whatever
    its body throws rejects the returned promise. *)
Definition batch `{Imports} (get : GotInstance) (commands : value) : async value :=
  match Object_keys commands with
  | Throw e => reject e
  | Normal keys =>
      let commandsAmount := length keys in
      if (MAX_COMMANDS_PER_BATCH <? commandsAmount)%nat then
        reject (JsError (tooManyCommandsMessage commandsAmount))
      else
        match commandsToBatchQuery commands with
        | Throw e => reject e
        | Normal query =>
            and_then
              (call get Method_BATCH (Obj [("query", record_value query)]))
              (fun r => handleBatchPayload (body r))
        end
  end.

(** ** The list-fetch method *)

Definition handleGetListPayload (payload : value) : completion value :=
  error <- get_prop payload "error" ;;
  if truthy error then
    Throw (JsError ("[get] failed to get the resource: " ++ to_string error ++ "."))
  else Normal payload.

(** An omitted [query] argument is [Undefined]. *)
Definition getList (get : GotInstance) (method : string) (query : value) : async value :=
  and_then (call get method (Obj [("query", query)]))
           (fun r => handleGetListPayload (body r)).

(** ** Vocabulary of the statements *)

(** [contains sub s]: [sub] occurs in [s]. *)
Definition contains (sub s : string) : Prop :=
  exists pre post, s = pre ++ sub ++ post.

(** The value stored for a command, as a total function: [commandQuery] where
    it returns. *)
Definition queryOf `{Imports} (command : value) : string :=
  match commandQuery command with
  | Normal q => q
  | Throw _ => EmptyString
  end.

Definition encoded `{Imports} (entry : string * value) : string * string :=
  (cmdKey (fst entry), queryOf (snd entry)).

Definition is_object_like (entry : string * value) : Prop :=
  nullish (snd entry) = false.

(** The [method] of a command is a string. *)
Definition has_text_method (entry : string * value) : Prop :=
  exists m, get_prop (snd entry) "method" = Normal (Str m).

(** The [method] of a command is a string, or the command has none. *)
Definition has_text_or_no_method (entry : string * value) : Prop :=
  get_prop (snd entry) "method" = Normal Undefined \/ has_text_method entry.

(** ** Sample inputs *)

Definition LIST_DEALS : string := "crm.deal.list".
Definition GET_LEAD : string := "crm.lead.get".

Definition sampleCommands : value :=
  Obj [("dealsList", Obj [("method", Str LIST_DEALS)]);
       ("someLead", Obj [("method", Str GET_LEAD);
                         ("params", Obj [("ID", Num 11)])])].

Definition batchPayload (resultErrors : value) : value :=
  Obj [("result", Obj [("result", Obj []); ("result_error", resultErrors)])].

Definition swappedCommands : value :=
  Obj [("someLead", Obj [("method", Str GET_LEAD);
                         ("params", Obj [("ID", Num 11)])]);
       ("dealsList", Obj [("method", Str LIST_DEALS)])].

Definition commands51 : value :=
  Arr (repeat (Obj [("method", Str LIST_DEALS)]) 51).

Definition getEmptyBatch : GotInstance :=
  fun _ _ => Fulfilled {| body := batchPayload (Arr []) |}.

Definition getFailing : GotInstance :=
  fun _ _ => Rejected (JsError "connect ETIMEDOUT").

Definition getNotFound : GotInstance :=
  fun _ _ => Fulfilled {| body := Obj [("error", Str "not found")] |}.

Definition getBadId : GotInstance :=
  fun _ _ => Fulfilled {| body := batchPayload (Arr [Str "bad ID"]) |}.

Definition getListOnlyFailing : GotInstance :=
  fun p _ =>
    if p =? "batch" then Fulfilled {| body := batchPayload (Arr []) |}
    else Rejected (JsError "socket hang up").

Definition getNullBody : GotInstance :=
  fun _ _ => Fulfilled {| body := Null |}.

Definition holedCommands : value :=
  Obj [("dealsList", Obj [("method", Str LIST_DEALS)]); ("someLead", Null)].

Definition nulls51 : value := Arr (repeat Null 51).

Definition tupleCommands : list value :=
  [Obj [("method", Str LIST_DEALS)];
   Obj [("method", Str GET_LEAD); ("params", Obj [("ID", Num 11)])]].

(** * Properties *)

Ltac distinct_keys :=
  repeat (constructor; [simpl; intuition discriminate|]); constructor.

Ltac object_like :=
  repeat (constructor; [reflexivity|]); constructor.

(** ** Runtime operations on concrete values *)

Example string_of_nat_51 : string_of_nat 51 = "51".
Proof. reflexivity. Qed.
Example string_of_nat_0 : string_of_nat 0 = "0".
Proof. reflexivity. Qed.
Example to_string_neg : to_string (Arr [Num (-5); Null; Str "a"]) = "-5,,a".
Proof. reflexivity. Qed.

Example encode_sample :
  @commandsToBatchQuery node_imports sampleCommands
  = Normal [("cmd[dealsList]", "crm.deal.list");
            ("cmd[someLead]", "crm.lead.get?ID=11")].
Proof. reflexivity. Qed.

Example encode_array :
  @commandsToBatchQuery node_imports
    (Arr [Obj [("method", Str "M")];
          Obj [("method", Str "M"); ("params", Obj [("a b", Str "x&y")])]])
  = Normal [("cmd[0]", "M"); ("cmd[1]", "M?a%20b=x%26y")].
Proof. reflexivity. Qed.


(** ** Strings *)

Lemma append_assoc (a b c : string) : (a ++ b) ++ c = a ++ (b ++ c).
Proof. induction a as [|x a IH]; simpl; [reflexivity | now rewrite IH]. Qed.

Lemma append_nil_r (a : string) : a ++ EmptyString = a.
Proof. induction a as [|x a IH]; simpl; [reflexivity | now rewrite IH]. Qed.

Lemma append_length (a b : string) :
  String.length (a ++ b) = String.length a + String.length b.
Proof. induction a as [|x a IH]; simpl; [reflexivity | now rewrite IH]. Qed.

Lemma append_inj_l (p a b : string) : p ++ a = p ++ b -> a = b.
Proof.
  induction p as [|x p IH]; simpl; intros E; [exact E|].
  injection E as E. auto.
Qed.

Lemma append_inj_r (a b s : string) : a ++ s = b ++ s -> a = b.
Proof.
  revert b. induction a as [|x a IH]; intros [|y b] E; simpl in E.
  - reflexivity.
  - apply (f_equal String.length) in E. simpl in E.
    rewrite append_length in E. lia.
  - apply (f_equal String.length) in E. simpl in E.
    rewrite append_length in E. lia.
  - injection E as -> E. f_equal. auto.
Qed.

Lemma cmdKey_inj (a b : string) : cmdKey a = cmdKey b -> a = b.
Proof.
  unfold cmdKey. intros E.
  apply append_inj_l in E. now apply append_inj_r in E.
Qed.

Lemma append_question_neq (m : string) : m ++ "?" <> m.
Proof.
  intros E. apply (f_equal String.length) in E.
  rewrite append_length in E. simpl in E. lia.
Qed.

Lemma contains_refl (s : string) : contains s s.
Proof. exists EmptyString, EmptyString. simpl. now rewrite append_nil_r. Qed.

Lemma contains_app_l (sub a b : string) : contains sub a -> contains sub (a ++ b).
Proof.
  intros (pre & post & ->). exists pre, (post ++ b).
  now rewrite !append_assoc.
Qed.

Lemma contains_app_r (sub a b : string) : contains sub b -> contains sub (a ++ b).
Proof.
  intros (pre & post & ->). exists (a ++ pre), post.
  now rewrite !append_assoc.
Qed.

Lemma join_contains (sep : string) (parts : list string) (p : string) :
  In p parts -> contains p (join sep parts).
Proof.
  induction parts as [|q rest IH]; intros Hin; [contradiction|].
  destruct Hin as [-> | Hin].
  - destruct rest as [|r rest]; simpl.
    + apply contains_refl.
    + apply contains_app_l, contains_refl.
  - destruct rest as [|r rest]; [contradiction|].
    change (join sep (q :: r :: rest)) with (q ++ sep ++ join sep (r :: rest)).
    apply contains_app_r, contains_app_r, IH, Hin.
Qed.

(** ** Association lists as objects *)

Lemma assoc_none_iff {A} (k : string) (l : list (string * A)) :
  assoc k l = None <-> ~ In k (map fst l).
Proof.
  induction l as [|[k' a] l IH]; simpl.
  - tauto.
  - destruct (String.eqb_spec k k') as [->|Hne].
    + split; [discriminate | intros Hn; exfalso; apply Hn; now left].
    + rewrite IH. split.
      * intros Hn [E|Hin]; [now apply Hne | now apply Hn].
      * intros Hn Hin. apply Hn. now right.
Qed.

Lemma assoc_in {A} (k : string) (a : A) (l : list (string * A)) :
  NoDup (map fst l) -> In (k, a) l -> assoc k l = Some a.
Proof.
  induction l as [|[k' b] l IH]; simpl; intros Hnd Hin; [contradiction|].
  inversion Hnd as [|? ? Hnotin Hnd']; subst.
  destruct Hin as [E | Hin].
  - injection E as -> ->. now rewrite String.eqb_refl.
  - destruct (String.eqb_spec k k') as [->|Hne].
    + exfalso. apply Hnotin. now apply (in_map fst) in Hin.
    + auto.
Qed.

Lemma assoc_permutation {A} (k : string) (l l' : list (string * A)) :
  NoDup (map fst l) -> Permutation l l' -> assoc k l = assoc k l'.
Proof.
  intros Hnd Hp. revert Hnd.
  induction Hp as [| [k1 a1] l l' Hp IH | [k1 a1] [k2 a2] l | l l' l'' Hp1 IH1 Hp2 IH2];
    intros Hnd.
  - reflexivity.
  - simpl. inversion Hnd; subst. now rewrite IH.
  - simpl. destruct (String.eqb_spec k k2) as [->|H2];
      destruct (String.eqb_spec k2 k1) as [<-|H1]; try reflexivity.
    exfalso. inversion Hnd as [|? ? Hnotin _]; subst. apply Hnotin. now left.
  - rewrite IH1 by assumption. apply IH2.
    apply (Permutation_NoDup (l := map fst l)); [|assumption].
    now apply Permutation_map.
Qed.

Lemma obj_set_fresh {A} (k : string) (x : A) (o : list (string * A)) :
  ~ In k (map fst o) -> obj_set k x o = (o ++ [(k, x)])%list.
Proof.
  induction o as [|[k' y] o IH]; simpl; intros Hn; [reflexivity|].
  destruct (String.eqb_spec k k') as [->|Hne].
  - exfalso. apply Hn. now left.
  - rewrite IH; [reflexivity|]. intros Hin. apply Hn. now right.
Qed.

(** ** The encoder *)

Section Encoder.
Context `{Imports}.

Lemma commandQuery_total (command : value) :
  nullish command = false -> commandQuery command = Normal (queryOf command).
Proof.
  unfold queryOf. destruct command; simpl; intros Hn;
    try discriminate; reflexivity.
Qed.

Lemma commandQuery_with_params (command p : value) (m : string) :
  get_prop command "method" = Normal (Str m) ->
  get_prop command "params" = Normal p ->
  truthy p = true ->
  commandQuery command = Normal (m ++ "?" ++ stringifyQuery p).
Proof.
  intros Hm Hp Ht. unfold commandQuery. rewrite Hp. simpl.
  rewrite Hm, Ht. reflexivity.
Qed.

Lemma commandQuery_without_params (command : value) (m : string) :
  get_prop command "method" = Normal (Str m) ->
  get_prop command "params" = Normal Undefined ->
  commandQuery command = Normal m.
Proof.
  intros Hm Hp. unfold commandQuery. rewrite Hp. simpl.
  rewrite Hm. simpl. now rewrite append_nil_r.
Qed.

Lemma reduce_addCommand_total (entries : list (string * value)) :
  Forall is_object_like entries ->
  forall acc, exists query, reduce addCommand entries acc = Normal query.
Proof.
  induction 1 as [|[k c] entries Hc _ IH]; intros acc; simpl.
  - now exists acc.
  - rewrite (commandQuery_total c Hc). simpl. apply IH.
Qed.

Lemma reduce_addCommand (entries : list (string * value)) :
  Forall is_object_like entries ->
  NoDup (map fst entries) ->
  forall acc,
    (forall k, In k (map fst entries) -> ~ In (cmdKey k) (map fst acc)) ->
    reduce addCommand entries acc = Normal (acc ++ map encoded entries)%list.
Proof.
  induction 1 as [|[k c] entries Hc _ IH]; intros Hnd acc Hfresh; simpl.
  - now rewrite app_nil_r.
  - inversion Hnd as [|? ? Hk Hnd']; subst.
    rewrite (commandQuery_total c Hc). simpl.
    rewrite obj_set_fresh by (apply Hfresh; now left).
    rewrite IH; [now rewrite <- app_assoc | assumption |].
    intros k' Hin. rewrite map_app, in_app_iff. simpl.
    intros [Hacc | [E | []]].
    + apply (Hfresh k'); [now right | assumption].
    + apply cmdKey_inj in E. subst k'. now apply Hk.
Qed.

Lemma commandsToBatchQuery_closed_form (commands : value)
    (entries : list (string * value)) :
  Object_entries commands = Normal entries ->
  NoDup (map fst entries) ->
  Forall is_object_like entries ->
  commandsToBatchQuery commands = Normal (map encoded entries).
Proof.
  intros He Hnd Hc. unfold commandsToBatchQuery. rewrite He. simpl.
  now rewrite reduce_addCommand by (auto; intros ? ? []).
Qed.

Lemma encoded_keys_NoDup (entries : list (string * value)) :
  NoDup (map fst entries) -> NoDup (map fst (map encoded entries)).
Proof.
  rewrite map_map. simpl.
  intros Hk. rewrite <- (map_map fst cmdKey). revert Hk.
  apply Finite.Injective_map_NoDup. intros a b. apply cmdKey_inj.
Qed.

Lemma encoded_lookup (entries : list (string * value)) (name : string)
    (command : value) :
  NoDup (map fst entries) ->
  In (name, command) entries ->
  assoc (cmdKey name) (map encoded entries) = Some (queryOf command).
Proof.
  intros Hnd Hin. apply assoc_in; [now apply encoded_keys_NoDup|].
  now apply (in_map encoded) in Hin.
Qed.

(** C3: a mapping of [n] commands encodes to [n] query entries keyed
    [cmd[<name>]], in the order of the commands; a command that carries
    parameters gets the value [<method>?<url-encoded-params>], a command
    without parameters gets exactly [<method>]. *)
Theorem commandsToBatchQuery_entries (commands : value)
    (entries : list (string * value)) :
  Object_entries commands = Normal entries ->
  NoDup (map fst entries) ->
  Forall is_object_like entries ->
  exists query,
    commandsToBatchQuery commands = Normal query
    /\ length query = length entries
    /\ map fst query = map (fun e => "cmd[" ++ fst e ++ "]") entries
    /\ forall name command m,
         In (name, command) entries ->
         get_prop command "method" = Normal (Str m) ->
         (forall p, get_prop command "params" = Normal p ->
                    truthy p = true ->
                    assoc ("cmd[" ++ name ++ "]") query
                    = Some (m ++ "?" ++ stringifyQuery p))
         /\ (get_prop command "params" = Normal Undefined ->
             assoc ("cmd[" ++ name ++ "]") query = Some m).
Proof.
  intros He Hnd Hc. exists (map encoded entries).
  split; [now apply commandsToBatchQuery_closed_form|].
  split; [apply length_map|].
  split; [now rewrite map_map|].
  intros name command m Hin Hm.
  pose proof (encoded_lookup entries name command Hnd Hin) as Hl.
  unfold cmdKey in Hl. rewrite Hl. unfold queryOf.
  split.
  - intros p Hp Ht. now rewrite (commandQuery_with_params _ _ _ Hm Hp Ht).
  - intros Hp. now rewrite (commandQuery_without_params _ _ Hm Hp).
Qed.

(** C9: a command whose [params] is the empty object encodes to
    [<method>?], with the question mark, because the empty object is truthy
    and url-encodes to the empty string; a command of the same method with
    no [params] encodes to [<method>], a different value. *)
Theorem commandsToBatchQuery_empty_params (commands : value)
    (entries : list (string * value)) (name : string) (command : value)
    (m : string) :
  stringifyQuery (Obj []) = EmptyString ->
  Object_entries commands = Normal entries ->
  NoDup (map fst entries) ->
  Forall is_object_like entries ->
  In (name, command) entries ->
  get_prop command "method" = Normal (Str m) ->
  get_prop command "params" = Normal (Obj []) ->
  exists query,
    commandsToBatchQuery commands = Normal query
    /\ assoc ("cmd[" ++ name ++ "]") query = Some (m ++ "?")
    /\ forall bare,
         get_prop bare "method" = Normal (Str m) ->
         get_prop bare "params" = Normal Undefined ->
         commandQuery bare = Normal m
         /\ assoc ("cmd[" ++ name ++ "]") query <> Some m.
Proof.
  intros Hqs He Hnd Hc Hin Hm Hp. exists (map encoded entries).
  split; [now apply commandsToBatchQuery_closed_form|].
  pose proof (encoded_lookup entries name command Hnd Hin) as Hl.
  unfold cmdKey in Hl. rewrite Hl. unfold queryOf.
  rewrite (commandQuery_with_params _ _ _ Hm Hp eq_refl), Hqs, append_nil_r.
  split; [reflexivity|].
  intros bare Hbm Hbp. split.
  - now apply commandQuery_without_params.
  - intros E. injection E as E. now apply append_question_neq in E.
Qed.

(** C8: encoding is a function of the mapping's content.  Two enumerations
    of the same commands (the same entries, in any order) both encode, and
    the two records agree on every key; on the very same enumeration the
    two results are identical. *)
Theorem commandsToBatchQuery_deterministic (commands commands' : value)
    (entries entries' : list (string * value)) :
  Object_entries commands = Normal entries ->
  Object_entries commands' = Normal entries' ->
  NoDup (map fst entries) ->
  Forall is_object_like entries ->
  Permutation entries entries' ->
  exists query query',
    commandsToBatchQuery commands = Normal query
    /\ commandsToBatchQuery commands' = Normal query'
    /\ (forall k, assoc k query = assoc k query')
    /\ Permutation query query'
    /\ (entries = entries' -> query = query').
Proof.
  intros He He' Hnd Hc Hp.
  assert (Hnd' : NoDup (map fst entries')).
  { apply (Permutation_NoDup (l := map fst entries)); [|assumption].
    now apply Permutation_map. }
  assert (Hc' : Forall is_object_like entries').
  { rewrite Forall_forall in *. intros e Hin. apply Hc.
    apply (Permutation_in (l := entries')); [now symmetry | assumption]. }
  exists (map encoded entries), (map encoded entries').
  split; [now apply commandsToBatchQuery_closed_form|].
  split; [now apply commandsToBatchQuery_closed_form|].
  split; [|split].
  - intros k. apply assoc_permutation.
    + now apply encoded_keys_NoDup.
    + now apply Permutation_map.
  - now apply Permutation_map.
  - now intros ->.
Qed.

(** C7, as the code has it: the empty mapping (and the empty array) encode
    to a record with no entries; an absent [commands] is not accepted,
    [Object.entries] raises a [TypeError] on it. *)
Theorem commandsToBatchQuery_no_commands :
  commandsToBatchQuery (Obj []) = Normal []
  /\ commandsToBatchQuery (Arr []) = Normal []
  /\ commandsToBatchQuery Undefined
     = Throw (JsTypeError "Cannot convert undefined or null to object").
Proof. repeat split. Qed.

End Encoder.

(** C7 as stated fails: on an absent [commands] the encoder throws, it does
    not yield an empty record next to the one of the empty mapping. *)
Lemma commandsToBatchQuery_undefined_throws :
  ~ (@commandsToBatchQuery node_imports Undefined = Normal []
     /\ @commandsToBatchQuery node_imports (Obj []) = Normal []).
Proof. intros [E _]. discriminate E. Qed.

(** ** Validation of the batch payload *)

Example handleBatchPayload_bad_ID :
  handleBatchPayload (batchPayload (Arr [Str "bad ID"]))
  = Throw (JsError ("[batch] failed to process. Received errors in 1 commands:"
                    ++ String "010" "bad ID")).
Proof. reflexivity. Qed.

Example handleBatchPayload_keyed_errors :
  handleBatchPayload
    (batchPayload (Obj [("a", Str "Expected error A"); ("b", Str "Expected error B")]))
  = Throw (JsError ("[batch] failed to process. Received errors in 2 commands:"
                    ++ String "010" "Expected error A"
                    ++ String "010" "Expected error B")).
Proof. reflexivity. Qed.

Lemma batchErrorMessage_contains_count (errors : list value) :
  contains (string_of_nat (length errors) ++ " commands")
           (batchErrorMessage errors).
Proof.
  unfold batchErrorMessage.
  exists "[batch] failed to process. Received errors in ".
  exists (":" ++ newline ++ array_join newline errors).
  now rewrite !append_assoc.
Qed.

Lemma batchErrorMessage_contains_error (errors : list value) (e : value) :
  In e errors -> contains (join_element e) (batchErrorMessage errors).
Proof.
  intros Hin. unfold batchErrorMessage.
  do 4 apply contains_app_r.
  apply join_contains. now apply in_map.
Qed.

(** C2: when the sequence of error messages read off the payload is not
    empty, validation throws an [Error] whose message gives their number and
    the messages joined by newlines (so it contains the count and every single
    message); validation throws exactly when that sequence is not empty. *)
Theorem handleBatchPayload_errors (payload : value) (errors : list value) :
  resultErrorsOf payload = Normal errors ->
  (errors <> [] ->
     handleBatchPayload payload
     = Throw (JsError ("[batch] failed to process. Received errors in "
                       ++ string_of_nat (length errors) ++ " commands:"
                       ++ newline
                       ++ array_join newline errors))
     /\ contains (string_of_nat (length errors) ++ " commands")
                 (batchErrorMessage errors)
     /\ forall s, In (Str s) errors -> contains s (batchErrorMessage errors))
  /\ ((exists e, handleBatchPayload payload = Throw e) <-> errors <> []).
Proof.
  intros He. unfold handleBatchPayload. rewrite He. simpl.
  destruct errors as [|e errors]; simpl.
  - split; [intros Hne; now contradiction Hne|].
    split; [intros [e E]; discriminate E | intros Hne; now contradiction Hne].
  - split.
    + intros _. split; [reflexivity|].
      split; [exact (batchErrorMessage_contains_count (e :: errors))|].
      intros s Hin.
      exact (batchErrorMessage_contains_error (e :: errors) (Str s) Hin).
    + split; [discriminate | intros _; eexists; reflexivity].
Qed.

(** C4: with [result_error] an empty array or an empty mapping, validation
    returns the payload as it is; a mapping is turned into the sequence of its
    values, an array is taken as it is. *)
Theorem handleBatchPayload_no_errors (payload result resultErrors : value) :
  get_prop payload "result" = Normal result ->
  get_prop result "result_error" = Normal resultErrors ->
  (resultErrors = Arr [] \/ resultErrors = Obj [] ->
     handleBatchPayload payload = Normal payload)
  /\ (forall props, resultErrors = Obj props ->
         resultErrorsOf payload = Normal (map snd props))
  /\ (forall xs, resultErrors = Arr xs -> resultErrorsOf payload = Normal xs).
Proof.
  intros Hr He. unfold handleBatchPayload, resultErrorsOf.
  rewrite Hr. simpl. rewrite He. simpl.
  split; [|split].
  - intros [-> | ->]; reflexivity.
  - intros props ->. reflexivity.
  - intros xs ->. reflexivity.
Qed.

(** C10, as the code has it: when [result.result_error] is missing,
    [undefined] or [null], validation fails with the [TypeError] of
    [Object.values], not with the batch error.  On an array or a mapping of
    error strings it returns the payload when there are none and throws the
    batch error otherwise; and arrays and objects are not the only values it
    gets through: on a number, a boolean or the empty string it returns the
    payload as well. *)
Theorem handleBatchPayload_missing_errors (payload result resultErrors : value) :
  get_prop payload "result" = Normal result ->
  get_prop result "result_error" = Normal resultErrors ->
  (nullish resultErrors = true ->
     handleBatchPayload payload
     = Throw (JsTypeError "Cannot convert undefined or null to object")
     /\ forall msg, handleBatchPayload payload <> Throw (JsError msg))
  /\ (forall errors,
        resultErrors = Arr errors
        \/ (exists props, resultErrors = Obj props /\ errors = map snd props) ->
        (forall e, In e errors -> exists s, e = Str s) ->
        (errors = [] /\ handleBatchPayload payload = Normal payload)
        \/ (errors <> []
            /\ handleBatchPayload payload
               = Throw (JsError (batchErrorMessage errors))))
  /\ ((exists n, resultErrors = Num n) \/ (exists b, resultErrors = Bool b)
      \/ resultErrors = Str EmptyString ->
      handleBatchPayload payload = Normal payload).
Proof.
  intros Hr He. unfold handleBatchPayload, resultErrorsOf.
  rewrite Hr. simpl. rewrite He. simpl.
  split; [|split].
  - intros Hn. destruct resultErrors; try discriminate Hn; simpl;
      (split; [reflexivity | discriminate]).
  - intros errors [-> | (props & -> & ->)] _; simpl.
    + destruct errors as [|x xs]; simpl;
        [left; now split | right; split; [discriminate | reflexivity]].
    + destruct props as [|x props]; simpl;
        [left; now split | right; split; [discriminate | reflexivity]].
  - intros [[n ->] | [[b ->] | ->]]; reflexivity.
Qed.

(** C10 as stated fails: validation also goes through on a [result_error]
    that is neither an array nor an object. *)
Lemma handleBatchPayload_passes_a_number :
  ~ (forall resultErrors returned,
       handleBatchPayload (batchPayload resultErrors) = Normal returned ->
       (exists xs, resultErrors = Arr xs)
       \/ (exists props, resultErrors = Obj props)).
Proof.
  intros Honly.
  destruct (Honly (Num 7) (batchPayload (Num 7)) eq_refl)
    as [[xs E] | [props E]]; discriminate E.
Qed.

(** ** The two methods *)

Section Methods.
Context `{Imports}.

Lemma Object_keys_length (commands : value) (entries : list (string * value)) :
  Object_entries commands = Normal entries ->
  Object_keys commands = Normal (map fst entries).
Proof. intros He. unfold Object_keys. now rewrite He. Qed.

Lemma commandsToBatchQuery_total (commands : value)
    (entries : list (string * value)) :
  Object_entries commands = Normal entries ->
  Forall is_object_like entries ->
  exists query, commandsToBatchQuery commands = Normal query.
Proof.
  intros He Hc. unfold commandsToBatchQuery. rewrite He. simpl.
  now apply reduce_addCommand_total.
Qed.

Lemma batch_within_limit (get : GotInstance) (commands : value)
    (entries : list (string * value)) (query : list (string * string))
    (log : list request) :
  Object_entries commands = Normal entries ->
  length entries <= MAX_COMMANDS_PER_BATCH ->
  commandsToBatchQuery commands = Normal query ->
  batch get commands log
  = and_then (call get Method_BATCH (Obj [("query", record_value query)]))
             (fun r => handleBatchPayload (body r)) log.
Proof.
  intros He Hle Hq. unfold batch.
  rewrite (Object_keys_length _ _ He), length_map.
  destruct (Nat.ltb_spec MAX_COMMANDS_PER_BATCH (length entries)) as [Hlt|_];
    [lia|].
  now rewrite Hq.
Qed.

Lemma and_then_call_log {B} (get : GotInstance) (p : string) (opts : value)
    (f : response -> completion B) (log : list request) :
  snd (and_then (call get p opts) f log)
  = (log ++ [{| path := p; options := opts |}])%list.
Proof. unfold and_then, call. now destruct (get p opts). Qed.

Lemma and_then_call_rejected {B} (get : GotInstance) (p : string)
    (opts : value) (f : response -> completion B) (log : list request)
    (e : exn) :
  get p opts = Rejected e ->
  fst (and_then (call get p opts) f log) = Rejected e.
Proof. intros E. unfold and_then, call. now rewrite E. Qed.

(** C1: with more than 50 commands the batch method rejects with an error
    whose message gives the number of commands and the limit, and the log
    of requests is left as it was: [get] is not called.  With 50 commands or
    fewer the check passes and exactly one request goes out, to the batch
    route, with the encoded commands as its query. *)
Theorem batch_size_check (get : GotInstance) (commands : value)
    (entries : list (string * value)) (log : list request) :
  Object_entries commands = Normal entries ->
  Forall is_object_like entries ->
  (50 < length entries ->
     batch get commands log
     = (Rejected (JsError ("[batch] failed to process. Received "
                           ++ string_of_nat (length entries)
                           ++ " commands, but maximum 50 allowed")),
        log))
  /\ (length entries <= 50 ->
      exists query,
        commandsToBatchQuery commands = Normal query
        /\ snd (batch get commands log)
           = (log ++ [{| path := Method_BATCH;
                         options := Obj [("query", record_value query)] |}])%list).
Proof.
  intros He Hc. split.
  - intros Hlt. unfold batch.
    rewrite (Object_keys_length _ _ He), length_map.
    destruct (Nat.ltb_spec MAX_COMMANDS_PER_BATCH (length entries)) as [_|Hle];
      [reflexivity | unfold MAX_COMMANDS_PER_BATCH in Hle; lia].
  - intros Hle.
    destruct (commandsToBatchQuery_total _ _ He Hc) as [query Hq].
    exists query. split; [assumption|].
    rewrite (batch_within_limit get _ _ _ log He Hle Hq).
    apply and_then_call_log.
Qed.

(** C6: an error with which [get] rejects is the error with which the
    method that called it rejects, for the batch method and for the list
    method each on its own: neither catches or wraps it. *)
Theorem transport_errors_propagate :
  (forall (get : GotInstance) (e : exn) (commands : value)
          (entries : list (string * value)) (query : list (string * string))
          (log : list request),
      Object_entries commands = Normal entries ->
      length entries <= 50 ->
      commandsToBatchQuery commands = Normal query ->
      get Method_BATCH (Obj [("query", record_value query)]) = Rejected e ->
      fst (batch get commands log) = Rejected e)
  /\ (forall (get : GotInstance) (e : exn) (method : string) (q : value)
             (log : list request),
         get method (Obj [("query", q)]) = Rejected e ->
         fst (getList get method q log) = Rejected e).
Proof.
  split.
  - intros get e commands entries query log He Hle Hq Hb.
    rewrite (batch_within_limit get _ _ _ log He Hle Hq).
    now apply and_then_call_rejected.
  - intros get e method q log Hl.
    unfold getList. now apply and_then_call_rejected.
Qed.

End Methods.

(** C5: the list method sends one request, to the given method, with the
    query handed on as it came; when the body's [error] is truthy the promise
    rejects with an [Error] whose message embeds it, and when [error] is
    missing or falsy the promise resolves with the body as it is. *)
Theorem getList_payload (get : GotInstance) (method : string) (query : value)
    (payload error : value) (log : list request) :
  get method (Obj [("query", query)]) = Fulfilled {| body := payload |} ->
  get_prop payload "error" = Normal error ->
  snd (getList get method query log)
  = (log ++ [{| path := method; options := Obj [("query", query)] |}])%list
  /\ (truthy error = true ->
      fst (getList get method query log)
      = Rejected (JsError ("[get] failed to get the resource: "
                           ++ to_string error ++ ".")))
  /\ (truthy error = false ->
      fst (getList get method query log) = Fulfilled payload).
Proof.
  intros Hg He. unfold getList, and_then, call, handleGetListPayload.
  rewrite Hg. simpl. rewrite He. simpl.
  split; [reflexivity|].
  split; intros ->; reflexivity.
Qed.

(** ** The theorems at concrete inputs *)

Lemma batch_size_check_witness :
  @batch node_imports getEmptyBatch commands51 []
  = (Rejected (JsError
       "[batch] failed to process. Received 51 commands, but maximum 50 allowed"),
     [])
  /\ exists query,
       @commandsToBatchQuery node_imports sampleCommands = Normal query
       /\ snd (@batch node_imports getEmptyBatch sampleCommands [])
          = [{| path := "batch";
                options := Obj [("query", record_value query)] |}].
Proof.
  split.
  - refine (proj1 (@batch_size_check node_imports getEmptyBatch commands51
                     (index_from 0 (elements commands51)) [] eq_refl _) _).
    + object_like.
    + simpl. lia.
  - refine (proj2 (@batch_size_check node_imports getEmptyBatch sampleCommands
                     _ [] eq_refl _) _).
    + object_like.
    + simpl. lia.
Defined.

Lemma handleBatchPayload_errors_witness :
  handleBatchPayload (batchPayload (Arr [Str "bad ID"]))
  = Throw (JsError ("[batch] failed to process. Received errors in 1 commands:"
                    ++ String "010" "bad ID"))
  /\ contains "1 commands" (batchErrorMessage [Str "bad ID"])
  /\ forall s, In (Str s) [Str "bad ID"] ->
               contains s (batchErrorMessage [Str "bad ID"]).
Proof.
  refine (proj1 (handleBatchPayload_errors (batchPayload (Arr [Str "bad ID"]))
                   [Str "bad ID"] eq_refl) _).
  discriminate.
Defined.

Lemma commandsToBatchQuery_entries_witness :
  exists query,
    @commandsToBatchQuery node_imports sampleCommands = Normal query
    /\ length query = 2
    /\ map fst query = ["cmd[dealsList]"; "cmd[someLead]"]
    /\ assoc "cmd[someLead]" query = Some "crm.lead.get?ID=11"
    /\ assoc "cmd[dealsList]" query = Some "crm.deal.list".
Proof.
  destruct (@commandsToBatchQuery_entries node_imports sampleCommands _ eq_refl)
    as (query & Hq & Hlen & Hkeys & Hval).
  - distinct_keys.
  - object_like.
  - exists query. repeat split; try assumption.
    + refine (proj1 (Hval "someLead"
                       (Obj [("method", Str GET_LEAD);
                             ("params", Obj [("ID", Num 11)])])
                       GET_LEAD _ eq_refl) _ eq_refl eq_refl).
      simpl. auto.
    + refine (proj2 (Hval "dealsList" (Obj [("method", Str LIST_DEALS)])
                       LIST_DEALS _ eq_refl) eq_refl).
      simpl. auto.
Defined.

Lemma handleBatchPayload_no_errors_witness :
  handleBatchPayload (batchPayload (Obj [])) = Normal (batchPayload (Obj [])).
Proof.
  refine (proj1 (handleBatchPayload_no_errors (batchPayload (Obj [])) _ (Obj [])
                   eq_refl eq_refl) _).
  now right.
Defined.

Lemma getList_payload_witness :
  fst (getList getNotFound "crm.deal.list" Undefined [])
  = Rejected (JsError "[get] failed to get the resource: not found.")
  /\ snd (getList getNotFound "crm.deal.list" Undefined [])
     = [{| path := "crm.deal.list"; options := Obj [("query", Undefined)] |}].
Proof.
  destruct (getList_payload getNotFound "crm.deal.list" Undefined
              (Obj [("error", Str "not found")]) (Str "not found") []
              eq_refl eq_refl) as (Hlog & Hfail & _).
  split; [exact (Hfail eq_refl) | exact Hlog].
Defined.

Lemma transport_errors_propagate_witness :
  fst (@batch node_imports getFailing sampleCommands [])
  = Rejected (JsError "connect ETIMEDOUT")
  /\ fst (getList getListOnlyFailing "crm.deal.list" (Str "start=50") [])
     = Rejected (JsError "socket hang up").
Proof.
  split.
  - refine (proj1 (@transport_errors_propagate node_imports) getFailing
              (JsError "connect ETIMEDOUT") sampleCommands _ _ []
              eq_refl _ eq_refl eq_refl).
    simpl. lia.
  - exact (proj2 (@transport_errors_propagate node_imports) getListOnlyFailing
             (JsError "socket hang up") "crm.deal.list" (Str "start=50") []
             eq_refl).
Defined.

Lemma commandsToBatchQuery_deterministic_witness :
  exists query query',
    @commandsToBatchQuery node_imports sampleCommands = Normal query
    /\ @commandsToBatchQuery node_imports swappedCommands = Normal query'
    /\ (forall k, assoc k query = assoc k query').
Proof.
  destruct (@commandsToBatchQuery_deterministic node_imports
              sampleCommands swappedCommands _ _ eq_refl eq_refl)
    as (query & query' & Hq & Hq' & Hk & _).
  - distinct_keys.
  - object_like.
  - apply perm_swap.
  - now exists query, query'.
Defined.

Lemma commandsToBatchQuery_empty_params_witness :
  exists query,
    @commandsToBatchQuery node_imports
      (Obj [("a", Obj [("method", Str "M"); ("params", Obj [])])])
    = Normal query
    /\ assoc "cmd[a]" query = Some "M?".
Proof.
  destruct (@commandsToBatchQuery_empty_params node_imports
              (Obj [("a", Obj [("method", Str "M"); ("params", Obj [])])])
              _ "a" (Obj [("method", Str "M"); ("params", Obj [])]) "M"
              eq_refl eq_refl)
    as (query & Hq & Hv & _).
  - distinct_keys.
  - object_like.
  - simpl. left. reflexivity.
  - reflexivity.
  - reflexivity.
  - now exists query.
Defined.

Lemma handleBatchPayload_missing_errors_witness :
  handleBatchPayload (Obj [("result", Obj [])])
  = Throw (JsTypeError "Cannot convert undefined or null to object").
Proof.
  refine (proj1 (proj1 (handleBatchPayload_missing_errors
                          (Obj [("result", Obj [])]) _ Undefined
                          eq_refl eq_refl) _)).
  reflexivity.
Defined.

(** * Further properties of the two modules *)

(** ** Array indices as keys *)

Lemma string_of_nat_inj (i j : nat) : string_of_nat i = string_of_nat j -> i = j.
Proof.
  unfold string_of_nat. intros E.
  apply DecimalNat.Unsigned.to_uint_inj.
  apply (f_equal NilEmpty.uint_of_string) in E.
  rewrite !NilEmpty.usu in E. now injection E.
Qed.

Lemma index_from_keys (xs : list value) (i : nat) :
  map fst (index_from i xs) = map string_of_nat (seq i (length xs)).
Proof.
  revert i. induction xs as [|x xs IH]; intros i; simpl; [reflexivity|].
  now rewrite IH.
Qed.

Lemma index_from_NoDup (xs : list value) (i : nat) :
  NoDup (map fst (index_from i xs)).
Proof.
  rewrite index_from_keys.
  apply Finite.Injective_map_NoDup; [|apply seq_NoDup].
  intros a b. apply string_of_nat_inj.
Qed.

Lemma index_from_nth (xs : list value) (i j : nat) (x : value) :
  nth_error xs j = Some x -> In (string_of_nat (i + j), x) (index_from i xs).
Proof.
  revert i j. induction xs as [|y xs IH]; intros i [|j] E; simpl in *;
    try discriminate.
  - injection E as ->. left. now rewrite Nat.add_0_r.
  - right. replace (i + S j) with (S i + j) by lia. now apply IH.
Qed.

Lemma index_from_object_like (xs : list value) (i : nat) :
  Forall (fun c => nullish c = false) xs ->
  Forall is_object_like (index_from i xs).
Proof.
  intros Hxs. revert i. induction Hxs as [|x xs Hx _ IH]; intros i; simpl;
    constructor; auto.
Qed.

(** ** Keys of the record under construction *)

Lemma obj_set_keys {A} (k k' : string) (x : A) (o : list (string * A)) :
  In k (map fst (obj_set k' x o)) <-> k = k' \/ In k (map fst o).
Proof.
  induction o as [|[k0 y] o IH]; simpl.
  - intuition.
  - destruct (String.eqb_spec k' k0) as [<-|Hne]; simpl.
    + intuition.
    + rewrite IH. intuition.
Qed.

Lemma obj_set_NoDup {A} (k : string) (x : A) (o : list (string * A)) :
  NoDup (map fst o) -> NoDup (map fst (obj_set k x o)).
Proof.
  induction o as [|[k0 y] o IH]; simpl; intros Hnd.
  - constructor; [intros [] | constructor].
  - inversion Hnd as [|? ? Hnotin Hnd']; subst.
    destruct (String.eqb_spec k k0) as [->|Hne]; simpl.
    + now constructor.
    + constructor; [|now apply IH].
      rewrite obj_set_keys. intros [E | Hin]; [now apply Hne | now apply Hnotin].
Qed.

Lemma obj_set_length {A} (k : string) (x : A) (o : list (string * A)) :
  length (obj_set k x o) <= S (length o).
Proof.
  induction o as [|[k0 y] o IH]; simpl; [lia|].
  destruct (k =? k0); simpl; lia.
Qed.

Section EncoderEdges.
Context `{Imports}.

Lemma commandQuery_nullish (command : value) :
  nullish command = true ->
  exists msg, commandQuery command = Throw (JsTypeError msg).
Proof.
  destruct command; simpl; intros Hn; try discriminate; eexists; reflexivity.
Qed.

Lemma reduce_addCommand_keys (entries : list (string * value)) :
  forall acc query,
    reduce addCommand entries acc = Normal query ->
    (forall k, In k (map fst query)
               <-> In k (map fst acc) \/ In k (map cmdKey (map fst entries)))
    /\ (NoDup (map fst acc) -> NoDup (map fst query))
    /\ length query <= length acc + length entries.
Proof.
  induction entries as [|[name c] entries IH]; intros acc query E; simpl in E.
  - injection E as <-. simpl. split; [intuition | split; [auto | lia]].
  - destruct (commandQuery c) as [q|e]; simpl in E; [|discriminate].
    destruct (IH _ _ E) as (Hk & Hnd & Hlen). split; [|split].
    + intros k. rewrite Hk, obj_set_keys. simpl. intuition.
    + intros Ha. now apply Hnd, obj_set_NoDup.
    + pose proof (obj_set_length (cmdKey name) q acc). simpl. lia.
Qed.

Lemma reduce_addCommand_throws (entries : list (string * value)) :
  forall acc,
    (exists e, reduce addCommand entries acc = Throw e)
    <-> Exists (fun entry => nullish (snd entry) = true) entries.
Proof.
  induction entries as [|[name c] entries IH]; intros acc; simpl.
  - split; [intros [e E]; discriminate | intros Hex; inversion Hex].
  - destruct (nullish c) eqn:Hn.
    + destruct (commandQuery_nullish c Hn) as [msg ->]. simpl.
      split; [intros _; now left | intros _; eexists; reflexivity].
    + rewrite (commandQuery_total c Hn). simpl. rewrite IH.
      split; [intros Hex; now right|].
      intros Hex. inversion Hex as [? ? Hc | ? ? Hrest]; subst; [|assumption].
      simpl in Hc. congruence.
Qed.

Lemma reduce_addCommand_TypeError (entries : list (string * value)) :
  forall acc e,
    reduce addCommand entries acc = Throw e -> exists msg, e = JsTypeError msg.
Proof.
  induction entries as [|[name c] entries IH]; intros acc e E; simpl in E.
  - discriminate.
  - destruct (nullish c) eqn:Hn.
    + destruct (commandQuery_nullish c Hn) as [msg Hq]. rewrite Hq in E.
      simpl in E. injection E as <-. now exists msg.
    + rewrite (commandQuery_total c Hn) in E. simpl in E. now apply IH in E.
Qed.

(** X1: a tuple (array) of commands encodes like a mapping keyed by position:
    the keys are [cmd[0]], [cmd[1]], ... in order, and the entry at [cmd[i]]
    is the query of the i-th command. *)
Theorem commandsToBatchQuery_array (xs : list value) :
  Forall (fun c => nullish c = false) xs ->
  exists query,
    commandsToBatchQuery (Arr xs) = Normal query
    /\ map fst query
       = map (fun i => "cmd[" ++ string_of_nat i ++ "]") (seq 0 (length xs))
    /\ forall i c,
         nth_error xs i = Some c ->
         exists q, commandQuery c = Normal q
                   /\ assoc ("cmd[" ++ string_of_nat i ++ "]") query = Some q.
Proof.
  intros Hxs. exists (map encoded (index_from 0 xs)).
  split; [|split].
  - apply commandsToBatchQuery_closed_form;
      [reflexivity | apply index_from_NoDup | now apply index_from_object_like].
  - rewrite map_map. simpl. rewrite <- (map_map fst cmdKey), index_from_keys.
    now rewrite map_map.
  - intros i c Hi. exists (queryOf c). split.
    + apply commandQuery_total.
      rewrite Forall_forall in Hxs. apply Hxs. now apply nth_error_In in Hi.
    + apply (encoded_lookup (index_from 0 xs) (string_of_nat i) c).
      * apply index_from_NoDup.
      * apply (index_from_nth xs 0 i c Hi).
Qed.

(** X2: whatever the commands, a record the encoder returns holds no key
    twice, holds exactly the keys [cmd[<name>]] of the names it was given, and
    has no more entries than there were commands. *)
Theorem commandsToBatchQuery_keys (commands : value)
    (entries : list (string * value)) (query : list (string * string)) :
  Object_entries commands = Normal entries ->
  commandsToBatchQuery commands = Normal query ->
  NoDup (map fst query)
  /\ (forall k, In k (map fst query)
                <-> exists name, In name (map fst entries)
                                 /\ k = "cmd[" ++ name ++ "]")
  /\ length query <= length entries.
Proof.
  intros He Hq. unfold commandsToBatchQuery in Hq. rewrite He in Hq.
  simpl in Hq. destruct (reduce_addCommand_keys _ _ _ Hq) as (Hk & Hnd & Hlen).
  split; [apply Hnd; constructor | split; [|exact Hlen]].
  intros k. rewrite Hk. simpl. rewrite in_map_iff. split.
  - intros [[] | (name & <- & Hin)]. now exists name.
  - intros (name & Hin & ->). right. now exists name.
Qed.

(** X3: on commands that are each [undefined], [null] or a command with a
    string for its [method], and with an imported [stringify] that returns,
    the encoder fails exactly when one of the commands is [undefined] or
    [null], and what it throws then is a [TypeError]. *)
Theorem commandsToBatchQuery_throws_iff (commands : value)
    (entries : list (string * value)) :
  Object_entries commands = Normal entries ->
  Forall (fun entry => nullish (snd entry) = true \/ has_text_method entry)
         entries ->
  ((exists e, commandsToBatchQuery commands = Throw e)
   <-> Exists (fun entry => nullish (snd entry) = true) entries)
  /\ forall e, commandsToBatchQuery commands = Throw e ->
               exists msg, e = JsTypeError msg.
Proof.
  intros He _. unfold commandsToBatchQuery. rewrite He. simpl. split.
  - apply reduce_addCommand_throws.
  - intros e. apply reduce_addCommand_TypeError.
Qed.

Lemma has_method_object_like (entries : list (string * value)) :
  Forall has_text_or_no_method entries -> Forall is_object_like entries.
Proof.
  apply Forall_impl. intros [name c] Hm. unfold is_object_like. simpl.
  destruct c; try reflexivity;
    destruct Hm as [E | [m E]]; simpl in E; discriminate E.
Qed.

(** X4: the encoder does not check the fields of a command.  In a mapping
    whose commands each have a string for [method] or no [method], a command
    without [method] encodes to the text [undefined] (with the parameters
    after it when [params] is truthy), and a command whose [params] is
    [null], [0], [false] or the empty string encodes to its method alone,
    like one without [params]. *)
Theorem commandsToBatchQuery_unchecked_fields (commands : value)
    (entries : list (string * value)) (name : string)
    (command params : value) :
  Object_entries commands = Normal entries ->
  NoDup (map fst entries) ->
  Forall has_text_or_no_method entries ->
  In (name, command) entries ->
  get_prop command "params" = Normal params ->
  exists query,
    commandsToBatchQuery commands = Normal query
    /\ (get_prop command "method" = Normal Undefined ->
        assoc ("cmd[" ++ name ++ "]") query
        = Some ("undefined"
                ++ if truthy params then "?" ++ stringifyQuery params
                   else EmptyString))
    /\ (forall m,
          get_prop command "method" = Normal (Str m) ->
          truthy params = false ->
          assoc ("cmd[" ++ name ++ "]") query = Some m).
Proof.
  intros He Hnd Hm Hin Hp. exists (map encoded entries).
  pose proof (has_method_object_like entries Hm) as Hc.
  split; [now apply commandsToBatchQuery_closed_form|].
  pose proof (encoded_lookup entries name command Hnd Hin) as Hl.
  unfold cmdKey in Hl. rewrite Hl. unfold queryOf, commandQuery.
  rewrite Hp. simpl. split.
  - intros ->. reflexivity.
  - intros m -> ->. simpl. now rewrite append_nil_r.
Qed.

End EncoderEdges.

(** ** Edges of the payload checks *)

(** X5: a body with no [result] (or no body at all) makes validation fail with
    the [TypeError] of the property read, before any error list is looked
    at. *)
Theorem handleBatchPayload_missing_result (payload : value) :
  nullish payload = true
  \/ (exists result, get_prop payload "result" = Normal result
                     /\ nullish result = true) ->
  exists msg, handleBatchPayload payload = Throw (JsTypeError msg).
Proof.
  unfold handleBatchPayload, resultErrorsOf.
  intros [Hn | (result & Hr & Hn)].
  - destruct payload; try discriminate Hn; simpl; eexists; reflexivity.
  - rewrite Hr. simpl.
    destruct result; try discriminate Hn; simpl; eexists; reflexivity.
Qed.

(** X6: a [result_error] that is a number, a boolean or the empty string has
    no values to list, so validation lets the payload through. *)
Theorem handleBatchPayload_primitive_errors (payload result resultErrors : value) :
  get_prop payload "result" = Normal result ->
  get_prop result "result_error" = Normal resultErrors ->
  (exists n, resultErrors = Num n) \/ (exists b, resultErrors = Bool b)
  \/ resultErrors = Str EmptyString ->
  handleBatchPayload payload = Normal payload.
Proof.
  intros Hr He Hshape. unfold handleBatchPayload, resultErrorsOf.
  rewrite Hr. simpl. rewrite He. simpl.
  destruct Hshape as [[n ->] | [[b ->] | ->]]; reflexivity.
Qed.

(** X7: the names of the failed commands play no part.  A payload whose
    errors come keyed by command name and a payload whose errors are the
    array of the same messages fail with the same error, and pass
    together. *)
Theorem handleBatchPayload_shape_independent
    (payload result payload' result' : value) (props : list (string * value)) :
  get_prop payload "result" = Normal result ->
  get_prop result "result_error" = Normal (Obj props) ->
  get_prop payload' "result" = Normal result' ->
  get_prop result' "result_error" = Normal (Arr (map snd props)) ->
  (forall e, handleBatchPayload payload = Throw e
             <-> handleBatchPayload payload' = Throw e)
  /\ (handleBatchPayload payload = Normal payload
      <-> handleBatchPayload payload' = Normal payload').
Proof.
  intros Hr He Hr' He'. unfold handleBatchPayload, resultErrorsOf.
  rewrite Hr, Hr'. simpl. rewrite He, He'. simpl.
  destruct (0 <? length (map snd props))%nat.
  - split; [intros e; reflexivity | split; discriminate].
  - split; [intros e; split; discriminate | split; reflexivity].
Qed.

(** X8: validation of a batch payload never hands back anything but the
    payload it was given, and it does so exactly when the error list it reads
    is empty. *)
Theorem handleBatchPayload_success_iff (payload returned : value) :
  handleBatchPayload payload = Normal returned
  <-> returned = payload /\ resultErrorsOf payload = Normal [].
Proof.
  unfold handleBatchPayload.
  destruct (resultErrorsOf payload) as [errors|e]; simpl.
  - destruct errors as [|x errors]; simpl.
    + split; [intros E; injection E as <-; auto | intros [-> _]; reflexivity].
    + split; [discriminate | intros [_ E]; discriminate E].
  - split; [discriminate | intros [_ E]; discriminate E].
Qed.

(** X9: the list payload check never hands back anything but the payload it
    was given, and it does so exactly when the payload can be read and its
    [error] is falsy: missing, [null], [false], [0] or the empty string. *)
Theorem handleGetListPayload_success_iff (payload returned : value) :
  handleGetListPayload payload = Normal returned
  <-> returned = payload
      /\ exists error, get_prop payload "error" = Normal error
                       /\ truthy error = false.
Proof.
  unfold handleGetListPayload.
  destruct (get_prop payload "error") as [error|e]; simpl.
  - destruct (truthy error) eqn:Ht.
    + split; [discriminate|].
      intros (_ & error' & E & Ht'). injection E as <-. congruence.
    + split; [intros E; injection E as <-; eauto | intros [-> _]; reflexivity].
  - split; [discriminate | intros (_ & error & E & _); discriminate E].
Qed.

(** ** The methods end to end *)

Section MethodEdges.
Context `{Imports}.

(** X10: when the commands pass the size check and encode, and the response
    body lists no errors, the batch promise resolves with that body as it is,
    after exactly one request. *)
Theorem batch_resolves (get : GotInstance) (commands : value)
    (entries : list (string * value)) (query : list (string * string))
    (payload : value) (log : list request) :
  Object_entries commands = Normal entries ->
  length entries <= 50 ->
  commandsToBatchQuery commands = Normal query ->
  get Method_BATCH (Obj [("query", record_value query)])
  = Fulfilled {| body := payload |} ->
  resultErrorsOf payload = Normal [] ->
  batch get commands log
  = (Fulfilled payload,
     (log ++ [{| path := Method_BATCH;
                 options := Obj [("query", record_value query)] |}])%list).
Proof.
  intros He Hle Hq Hg Herr.
  rewrite (batch_within_limit get _ _ _ log He Hle Hq).
  unfold and_then, call. rewrite Hg. simpl.
  unfold handleBatchPayload. rewrite Herr. reflexivity.
Qed.

(** X11: when the response body lists errors, the batch promise rejects with
    the batch error built from them; the request has gone out, and nothing of
    the body reaches the caller. *)
Theorem batch_rejects_on_errors (get : GotInstance) (commands : value)
    (entries : list (string * value)) (query : list (string * string))
    (payload : value) (errors : list value) (log : list request) :
  Object_entries commands = Normal entries ->
  length entries <= 50 ->
  commandsToBatchQuery commands = Normal query ->
  get Method_BATCH (Obj [("query", record_value query)])
  = Fulfilled {| body := payload |} ->
  resultErrorsOf payload = Normal errors ->
  errors <> [] ->
  batch get commands log
  = (Rejected (JsError (batchErrorMessage errors)),
     (log ++ [{| path := Method_BATCH;
                 options := Obj [("query", record_value query)] |}])%list).
Proof.
  intros He Hle Hq Hg Herr Hne.
  rewrite (batch_within_limit get _ _ _ log He Hle Hq).
  unfold and_then, call. rewrite Hg. simpl.
  unfold handleBatchPayload. rewrite Herr. simpl.
  destruct errors as [|x errors]; [now contradiction Hne | reflexivity].
Qed.

(** X12: called with [undefined] or [null] for the commands, the batch method
    does not throw: its promise rejects with the [TypeError] of
    [Object.keys], and no request goes out. *)
Theorem batch_nullish_commands (get : GotInstance) (commands : value)
    (log : list request) :
  nullish commands = true ->
  batch get commands log
  = (Rejected (JsTypeError "Cannot convert undefined or null to object"), log).
Proof.
  destruct commands; simpl; intros Hn; try discriminate Hn; reflexivity.
Qed.

(** X13: when one of at most 50 commands is [undefined] or [null], encoding
    fails, the batch promise rejects with that [TypeError], and no request
    goes out. *)
Theorem batch_nullish_command (get : GotInstance) (commands : value)
    (entries : list (string * value)) (log : list request) :
  Object_entries commands = Normal entries ->
  length entries <= 50 ->
  Exists (fun entry => nullish (snd entry) = true) entries ->
  exists msg, batch get commands log = (Rejected (JsTypeError msg), log).
Proof.
  intros He Hle Hex. unfold batch.
  rewrite (Object_keys_length _ _ He), length_map.
  destruct (Nat.ltb_spec MAX_COMMANDS_PER_BATCH (length entries)) as [Hlt|_];
    [unfold MAX_COMMANDS_PER_BATCH in Hlt; lia|].
  unfold commandsToBatchQuery. rewrite He. simpl.
  destruct (proj2 (reduce_addCommand_throws entries []) Hex) as [e E].
  rewrite E. destruct (reduce_addCommand_TypeError _ _ _ E) as [msg ->].
  now exists msg.
Qed.

(** X14: the size check comes before anything is encoded.  More than 50
    entries are turned down with the size error and no request, whatever the
    entries hold, broken commands included. *)
Theorem batch_size_check_first (get : GotInstance) (commands : value)
    (entries : list (string * value)) (log : list request) :
  Object_entries commands = Normal entries ->
  50 < length entries ->
  batch get commands log
  = (Rejected (JsError ("[batch] failed to process. Received "
                        ++ string_of_nat (length entries)
                        ++ " commands, but maximum 50 allowed")),
     log).
Proof.
  intros He Hlt. unfold batch.
  rewrite (Object_keys_length _ _ He), length_map.
  destruct (Nat.ltb_spec MAX_COMMANDS_PER_BATCH (length entries)) as [_|Hle];
    [reflexivity | unfold MAX_COMMANDS_PER_BATCH in Hle; lia].
Qed.

(** X15: neither method retries or fans out.  Whatever the input and however
    [get] answers, the batch method adds at most one request to the log, to
    the batch route, and the list method adds exactly one, to the method it
    was given; earlier entries of the log stay as they were. *)
Theorem methods_single_request (get : GotInstance) (commands : value)
    (method : string) (query : value) (log : list request) :
  (exists sent,
     snd (batch get commands log) = (log ++ sent)%list
     /\ length sent <= 1
     /\ forall r, In r sent -> path r = Method_BATCH)
  /\ snd (getList get method query log)
     = (log ++ [{| path := method; options := Obj [("query", query)] |}])%list.
Proof.
  split; [|apply and_then_call_log].
  unfold batch.
  destruct (Object_keys commands) as [keys|e]; simpl.
  - destruct (MAX_COMMANDS_PER_BATCH <? length keys)%nat; simpl.
    + exists []. rewrite app_nil_r. simpl. intuition.
    + destruct (commandsToBatchQuery commands) as [q|e]; simpl.
      * eexists. rewrite and_then_call_log. split; [reflexivity|].
        simpl. split; [lia|]. intros r [<- | []]. reflexivity.
      * exists []. rewrite app_nil_r. simpl. intuition.
  - exists []. rewrite app_nil_r. simpl. intuition.
Qed.

End MethodEdges.

(** X16: when the response body is [null] or [undefined], the list method
    rejects with the [TypeError] of reading [error]; the request has gone
    out. *)
Theorem getList_nullish_body (get : GotInstance) (method : string)
    (query payload : value) (log : list request) :
  get method (Obj [("query", query)]) = Fulfilled {| body := payload |} ->
  nullish payload = true ->
  exists msg,
    getList get method query log
    = (Rejected (JsTypeError msg),
       (log ++ [{| path := method; options := Obj [("query", query)] |}])%list).
Proof.
  intros Hg Hn. unfold getList, and_then, call, handleGetListPayload.
  rewrite Hg. simpl.
  destruct payload; try discriminate Hn; simpl; eexists; reflexivity.
Qed.

(** ** The further properties at concrete inputs *)

Lemma commandsToBatchQuery_array_witness :
  exists query,
    @commandsToBatchQuery node_imports (Arr tupleCommands) = Normal query
    /\ map fst query = ["cmd[0]"; "cmd[1]"]
    /\ assoc "cmd[1]" query = Some "crm.lead.get?ID=11".
Proof.
  destruct (@commandsToBatchQuery_array node_imports tupleCommands)
    as (query & Hq & Hkeys & Hval).
  - repeat (constructor; [reflexivity|]); constructor.
  - exists query. split; [exact Hq | split; [exact Hkeys|]].
    destruct (Hval 1 _ eq_refl) as (q & Hc & Hl).
    injection Hc as <-. exact Hl.
Defined.

Lemma commandsToBatchQuery_keys_witness :
  NoDup ["cmd[dealsList]"; "cmd[someLead]"]
  /\ (In "cmd[0]" ["cmd[dealsList]"; "cmd[someLead]"]
      <-> exists name, In name ["dealsList"; "someLead"]
                       /\ "cmd[0]" = "cmd[" ++ name ++ "]").
Proof.
  destruct (@commandsToBatchQuery_keys node_imports sampleCommands _
              [("cmd[dealsList]", "crm.deal.list");
               ("cmd[someLead]", "crm.lead.get?ID=11")] eq_refl eq_refl)
    as (Hnd & Hk & _).
  split; [exact Hnd | exact (Hk "cmd[0]")].
Defined.

Lemma commandsToBatchQuery_throws_iff_witness :
  exists msg,
    @commandsToBatchQuery node_imports holedCommands = Throw (JsTypeError msg).
Proof.
  destruct (@commandsToBatchQuery_throws_iff node_imports holedCommands _ eq_refl)
    as (Hiff & Hty).
  - constructor; [right; exists LIST_DEALS; reflexivity|].
    constructor; [left; reflexivity | constructor].
  - destruct (proj2 Hiff) as [e E].
    + right. left. reflexivity.
    + destruct (Hty e E) as [msg ->]. now exists msg.
Defined.

Lemma commandsToBatchQuery_unchecked_fields_witness :
  exists query,
    @commandsToBatchQuery node_imports
      (Obj [("a", Obj [("params", Null)]);
            ("b", Obj [("method", Str "M"); ("params", Num 0)])])
    = Normal query
    /\ assoc "cmd[a]" query = Some "undefined"
    /\ assoc "cmd[b]" query = Some "M".
Proof.
  assert (Hm : Forall has_text_or_no_method
                 [("a", Obj [("params", Null)]);
                  ("b", Obj [("method", Str "M"); ("params", Num 0)])]).
  { constructor; [left; reflexivity|].
    constructor; [right; exists "M"; reflexivity | constructor]. }
  destruct (@commandsToBatchQuery_unchecked_fields node_imports
              (Obj [("a", Obj [("params", Null)]);
                    ("b", Obj [("method", Str "M"); ("params", Num 0)])])
              _ "a" (Obj [("params", Null)]) Null eq_refl)
    as (query & Hq & Ha & _).
  - distinct_keys.
  - exact Hm.
  - simpl. left. reflexivity.
  - reflexivity.
  - destruct (@commandsToBatchQuery_unchecked_fields node_imports
                (Obj [("a", Obj [("params", Null)]);
                      ("b", Obj [("method", Str "M"); ("params", Num 0)])])
                _ "b" (Obj [("method", Str "M"); ("params", Num 0)]) (Num 0)
                eq_refl)
      as (query' & Hq' & _ & Hb).
    + distinct_keys.
    + exact Hm.
    + simpl. right. left. reflexivity.
    + reflexivity.
    + exists query. split; [exact Hq|]. split; [exact (Ha eq_refl)|].
      rewrite Hq' in Hq. injection Hq as <-. exact (Hb "M" eq_refl eq_refl).
Defined.

Lemma handleBatchPayload_missing_result_witness :
  exists msg,
    handleBatchPayload (Obj [("error", Str "QUERY_LIMIT_EXCEEDED")])
    = Throw (JsTypeError msg).
Proof.
  apply handleBatchPayload_missing_result.
  right. exists Undefined. split; reflexivity.
Defined.

Lemma handleBatchPayload_primitive_errors_witness :
  handleBatchPayload (batchPayload (Num 7)) = Normal (batchPayload (Num 7)).
Proof.
  apply (handleBatchPayload_primitive_errors (batchPayload (Num 7)) _ (Num 7)
           eq_refl eq_refl).
  left. now exists 7%Z.
Defined.

Lemma handleBatchPayload_shape_independent_witness :
  handleBatchPayload (batchPayload (Obj [("someLead", Str "bad ID")]))
  = Throw (JsError ("[batch] failed to process. Received errors in 1 commands:"
                    ++ newline ++ "bad ID")).
Proof.
  apply (proj1 (handleBatchPayload_shape_independent
                  (batchPayload (Obj [("someLead", Str "bad ID")])) _
                  (batchPayload (Arr [Str "bad ID"])) _
                  [("someLead", Str "bad ID")]
                  eq_refl eq_refl eq_refl eq_refl)).
  reflexivity.
Defined.

Lemma batch_resolves_witness :
  @batch node_imports getEmptyBatch sampleCommands []
  = (Fulfilled (batchPayload (Arr [])),
     [{| path := "batch";
         options := Obj [("query",
                          Obj [("cmd[dealsList]", Str "crm.deal.list");
                               ("cmd[someLead]", Str "crm.lead.get?ID=11")])] |}]).
Proof.
  refine (@batch_resolves node_imports getEmptyBatch sampleCommands _
            [("cmd[dealsList]", "crm.deal.list");
             ("cmd[someLead]", "crm.lead.get?ID=11")]
            (batchPayload (Arr [])) [] eq_refl _ eq_refl eq_refl eq_refl).
  simpl. lia.
Defined.

Lemma batch_rejects_on_errors_witness :
  @batch node_imports getBadId sampleCommands []
  = (Rejected (JsError ("[batch] failed to process. Received errors in 1 commands:"
                        ++ newline ++ "bad ID")),
     [{| path := "batch";
         options := Obj [("query",
                          Obj [("cmd[dealsList]", Str "crm.deal.list");
                               ("cmd[someLead]", Str "crm.lead.get?ID=11")])] |}]).
Proof.
  refine (@batch_rejects_on_errors node_imports getBadId sampleCommands _
            [("cmd[dealsList]", "crm.deal.list");
             ("cmd[someLead]", "crm.lead.get?ID=11")]
            (batchPayload (Arr [Str "bad ID"])) [Str "bad ID"] []
            eq_refl _ eq_refl eq_refl eq_refl _).
  - simpl. lia.
  - discriminate.
Defined.

Lemma batch_nullish_commands_witness :
  @batch node_imports getEmptyBatch Undefined []
  = (Rejected (JsTypeError "Cannot convert undefined or null to object"), []).
Proof.
  apply (@batch_nullish_commands node_imports). reflexivity.
Defined.

Lemma batch_nullish_command_witness :
  exists msg,
    @batch node_imports getEmptyBatch holedCommands []
    = (Rejected (JsTypeError msg), []).
Proof.
  refine (@batch_nullish_command node_imports getEmptyBatch holedCommands _ []
            eq_refl _ _).
  - simpl. lia.
  - right. left. reflexivity.
Defined.

Lemma batch_size_check_first_witness :
  @batch node_imports getEmptyBatch nulls51 []
  = (Rejected (JsError
       "[batch] failed to process. Received 51 commands, but maximum 50 allowed"),
     []).
Proof.
  refine (@batch_size_check_first node_imports getEmptyBatch nulls51
            (index_from 0 (elements nulls51)) [] eq_refl _).
  simpl. lia.
Defined.

Lemma getList_nullish_body_witness :
  exists msg,
    getList getNullBody "crm.deal.list" Undefined []
    = (Rejected (JsTypeError msg),
       [{| path := "crm.deal.list"; options := Obj [("query", Undefined)] |}]).
Proof.
  apply (getList_nullish_body getNullBody "crm.deal.list" Undefined Null []);
    reflexivity.
Defined.
